(** * HelmholtzCoils: a shallow embedding of [HelmholtzCoils.py]

    The Python class [HelmholtzCoils] stores the turns per coil [N], the
    current per coil [I] and the common radius [a] of a Helmholtz pair, and
    computes the field, the flux density, the wire length, the wire
    resistance, the drive voltage and a wire-gauge recommendation.

    Modelling choices.
    - Python floats are idealised as real numbers ([R]): no rounding, no
      overflow, no NaN.  Python integers are [Z]; an integer that meets a
      float is injected with [IZR].
    - A method is a computation in a state-and-exception monad over the
      object: it receives [self], returns a value or raises, and hands back
      the (possibly mutated) object.  A raised exception keeps every
      assignment made before it, as in Python.
    - Division raises [ZeroDivisionError] on a zero divisor; arithmetic on
      [None] raises [TypeError].
    - A dict literal is an association list in source order; [dict.get] is
      the first-match lookup and [dict.items()] the list itself. *)

From Stdlib Require Import Reals ZArith List Bool Lra Lia.
Import ListNotations.

Open Scope R_scope.

(** ** Python exceptions and results *)

Inductive exn : Type :=
| ZeroDivisionError
| TypeError
| ValueError (gauge : Z).   (* f"AWG {gauge} is not in the available list." *)

Inductive result (A : Type) : Type :=
| Ok (v : A)
| Raise (e : exn).

Arguments Ok {A} v.
Arguments Raise {A} e.

(** ** Comparisons on reals as booleans *)

Definition Rle_b (x y : R) : bool := if Rle_dec x y then true else false.
Definition Rge_b (x y : R) : bool := if Rge_dec x y then true else false.
Definition Rlt_b (x y : R) : bool := if Rlt_dec x y then true else false.
Definition Req_b (x y : R) : bool := if Req_dec_T x y then true else false.

(** A float that may be [float('inf')]. *)
Inductive xfloat : Type :=
| Finite (x : R)
| Inf.

(** [x < d] for a finite [x]. *)
Definition lt_x (x : R) (d : xfloat) : bool :=
  match d with
  | Finite y => Rlt_b x y
  | Inf => true
  end.

(** ** Dictionaries *)

Section Dict.
Context {V : Type}.

(** [d.get(k)]: the value of the first entry with key [k], else [None]. *)
Fixpoint dict_get (d : list (Z * V)) (k : Z) : option V :=
  match d with
  | [] => None
  | (k', v) :: d' => if Z.eqb k' k then Some v else dict_get d' k
  end.

End Dict.

Module HelmholtzCoils.

(** The instance attributes set by [__init__]. *)
Record self : Type := mkSelf {
  N : Z;                  (* turns per coil *)
  I : R;                  (* current (A) per coil *)
  a : R;                  (* common radius (m) of the coils *)
  lhcoil_position : R;    (* position of the left coil (m) *)
  rhcoil_position : R     (* position of the right coil (m) *)
}.

(** *** The method monad *)

Definition M (A : Type) : Type := self -> result A * self.

Definition ret {A} (v : A) : M A := fun s => (Ok v, s).

Definition raise {A} (e : exn) : M A := fun s => (Raise e, s).

Definition bind {A B} (c : M A) (k : A -> M B) : M B :=
  fun s =>
    match c s with
    | (Ok v, s') => k v s'
    | (Raise e, s') => (Raise e, s')
    end.

Notation "x <- c ;; k" := (bind c (fun x => k))
  (at level 61, c at next level, right associativity).
Notation "c ;;; k" := (bind c (fun _ => k))
  (at level 61, right associativity).

(** Reading an attribute. *)
Definition get {A} (f : self -> A) : M A := fun s => (Ok (f s), s).

(** Attribute assignments [self.N = v], [self.I = v], [self.a = v]. *)
Definition with_N (v : Z) (s : self) : self :=
  mkSelf v (I s) (a s) (lhcoil_position s) (rhcoil_position s).
Definition with_I (v : R) (s : self) : self :=
  mkSelf (N s) v (a s) (lhcoil_position s) (rhcoil_position s).
Definition with_a (v : R) (s : self) : self :=
  mkSelf (N s) (I s) v (lhcoil_position s) (rhcoil_position s).

Definition set_N (v : Z) : M unit := fun s => (Ok tt, with_N v s).
Definition set_I (v : R) : M unit := fun s => (Ok tt, with_I v s).
Definition set_a (v : R) : M unit := fun s => (Ok tt, with_a v s).

(** Float division [x / y]. *)
Definition fdiv (x y : R) : M R :=
  if Req_b y 0 then raise ZeroDivisionError else ret (x / y).

(** *** Class attributes *)

Definition mu_0 : R := 4 * PI * 1e-7.
Definition resistivity_copper : R := 1.68e-8.

(** *** [__init__] *)

Definition init (turns_per_coil : Z) (current_per_coil coil_radius : R) : self :=
  mkSelf turns_per_coil current_per_coil coil_radius
         (- coil_radius / 2) (coil_radius / 2).

(** *** Field and flux density *)

(** [H]: the [position] argument is not used by the body. *)
Definition H (position : R) : M R :=
  n <- get N ;; i <- get I ;; r <- get a ;;
  fdiv (Rpower (4 / 5) (3 / 2) * (IZR n * i)) r.

Definition centerH : M R := H 0.

Definition B (position : R) : M R :=
  h <- H position ;; ret (mu_0 * h * 1000).

Definition centerB : M R := B 0.

Definition B_mG (position : R) : M R :=
  b <- B position ;; ret (b * 1e4).

(** *** Wire *)

Definition wirelength : M R :=
  r <- get a ;;
  let coil_circumference := PI * 2 * r in
  n <- get N ;;
  let wire_per_coil := IZR n * coil_circumference in
  ret (2 * wire_per_coil).

(** [wire_diameter] is whatever the caller passes: a float, or the [None]
    that [awg_diameter] returns for a missing gauge. *)
Definition wire_resistance (wire_diameter : option R) : M R :=
  wire_length <- wirelength ;;
  match wire_diameter with
  | None => raise TypeError
  | Some d =>
      let wire_area := PI * (d / 2) ^ 2 in
      fdiv (resistivity_copper * wire_length) wire_area
  end.

Definition voltage_required (wire_diameter : option R) : M R :=
  resistance <- wire_resistance wire_diameter ;;
  i <- get I ;;
  ret (i * resistance).

(** *** Gauge tables *)

Definition gauge_current : list (Z * R) :=
  [ (10%Z, 15); (11%Z, 10); (14%Z, 5); (16%Z, 3.5); (17%Z, 2.5); (18%Z, 2);
    (20%Z, 1.5); (21%Z, 1.0); (22%Z, 0.75); (24%Z, 0.5); (27%Z, 0.25);
    (30%Z, 0.125); (31%Z, 0.100); (32%Z, 0.075); (34%Z, 0.050);
    (37%Z, 0.025); (40%Z, 0.0125) ].

Definition awg_to_diameter : list (Z * R) :=
  [ (10%Z, 0.002588); (11%Z, 0.002305); (12%Z, 0.002053); (13%Z, 0.001828);
    (14%Z, 0.001628); (15%Z, 0.001450); (16%Z, 0.001291); (17%Z, 0.001150);
    (18%Z, 0.001024); (19%Z, 0.0009116); (20%Z, 0.0008128); (21%Z, 0.0007229);
    (22%Z, 0.0006438) ].

(** [awg_recommendation]: one iteration of the loop over
    [gauge_current.items()], on the loop state [(delta, awg_rec)]. *)
Definition awg_step (i : R) (st : xfloat * Z) (item : Z * R) : xfloat * Z :=
  let '(delta, awg_rec) := st in
  let '(gauge, current) := item in
  let epsilon := current - i in
  if Rge_b epsilon 0 && lt_x epsilon delta
  then (Finite epsilon, gauge)
  else (delta, awg_rec).

Definition awg_loop (i : R) (items : list (Z * R)) (st : xfloat * Z) : xfloat * Z :=
  fold_left (awg_step i) items st.

Definition awg_recommendation : M Z :=
  let delta := Inf in
  let awg_rec := 0%Z in
  i <- get I ;;
  if Rge_b i 0.0125 && Rle_b i 15
  then ret (snd (awg_loop i gauge_current (delta, awg_rec)))
  else ret awg_rec.

Definition awg_diameter (awg : Z) : M (option R) :=
  ret (dict_get awg_to_diameter awg).

(** *** [summary] *)

(** The dictionary [summary] returns: one field per key, in source order.
    The first three keys carry [str(position)] in their label. *)
Record summary_dict : Type := mkSummary {
  s_position : R;
  s_H_at_position : R;      (* "Magnetic Field at Position <p> (A/m)" *)
  s_B_at_position : R;      (* "Flux Density at Position <p> (mT)" *)
  s_B_mG_at_position : R;   (* "Flux Density at Position <p> (mG)" *)
  s_H_at_center : R;        (* "Magnetic Field at Center (A/m)" *)
  s_B_at_center : R;        (* "Flux Density at Center (mT)" *)
  s_wire_length : R;        (* "Wire Length (m)" *)
  s_awg_recommendation : Z; (* "AWG Recommendation" *)
  s_voltage_required : R    (* "Voltage Required (V)" *)
}.

Definition summary (position : R) : M summary_dict :=
  h <- H position ;;
  b <- B position ;;
  bmg <- B_mG position ;;
  ch <- centerH ;;
  cb <- centerB ;;
  wl <- wirelength ;;
  rec <- awg_recommendation ;;
  rec' <- awg_recommendation ;;
  wire_diameter <- awg_diameter rec' ;;
  v <- voltage_required wire_diameter ;;
  ret (mkSummary position h b bmg ch cb wl rec v).

(** *** [custom_B_field_cal] *)

(** The dictionary [custom_B_field_cal] returns. *)
Record custom_dict : Type := mkCustom {
  c_position : R;
  c_H_at_position : R;      (* "Magnetic Field at Position <p> (A/m)" *)
  c_B_at_position : R;      (* "Flux Density at Position <p> (mT)" *)
  c_B_mG_at_position : R;   (* "Flux Density at Position <p> (mG)" *)
  c_H_at_center : R;        (* "Magnetic Field at Center (A/m)" *)
  c_B_at_center : R;        (* "Flux Density at Center (mT)" *)
  c_wire_length : R;        (* "Wire Length (m)" *)
  c_voltage_required : R    (* "Voltage Required (V)" *)
}.

Definition custom_B_field_cal (gauge turns : Z) (radius current position : R)
  : M custom_dict :=
  set_N turns ;;;
  set_a radius ;;;
  set_I current ;;;
  wire_diameter <- awg_diameter gauge ;;
  match wire_diameter with
  | None => raise (ValueError gauge)
  | Some d =>
      B_field <- B position ;;
      voltage <- voltage_required (Some d) ;;
      h <- H position ;;
      ch <- centerH ;;
      cb <- centerB ;;
      wl <- wirelength ;;
      ret (mkCustom position h B_field (B_field * 1e4) ch cb wl voltage)
  end.

(** *** The example at the end of the file *)

Definition helmholtz_coils : self := init 20 5 0.025.

(** *** Observing a call *)

(** What a call returned or raised, and the object it left behind. *)
Definition value_of {A} (r : result A * self) : result A := fst r.
Definition self_after {A} (r : result A * self) : self := snd r.

(** The stored parameters [turns], [current] and [radius] agree. *)
Definition same_params (s s' : self) : Prop :=
  N s' = N s /\ I s' = I s /\ a s' = a s.

(** A method that never assigns to [self]. *)
Definition read_only {A} (c : M A) : Prop :=
  forall s, self_after (c s) = s.

(** [g] is a gauge of [table] whose rating is at least [i] and is the
    smallest rating of the table with that property. *)
Definition tightest_gauge (table : list (Z * R)) (i : R) (g : Z) : Prop :=
  exists r, In (g, r) table /\ r >= i /\
            forall g' r', In (g', r') table -> r' >= i -> r <= r'.

(** The loop invariant of [awg_recommendation] once the items [seen] have
    been visited: either nothing was selected yet and every rating seen is
    below [i], or [awg_rec] is a tightest gauge of [seen] and [delta] is its
    slack. *)
Definition awg_inv (i : R) (seen : list (Z * R)) (st : xfloat * Z) : Prop :=
  match fst st with
  | Inf => snd st = 0%Z /\ forall g r, In (g, r) seen -> r < i
  | Finite e =>
      exists r, In (snd st, r) seen /\ e = r - i /\ r >= i /\
                forall g' r', In (g', r') seen -> r' >= i -> r <= r'
  end.

End HelmholtzCoils.

Import HelmholtzCoils.

(** * Properties *)

(** ** The boolean comparisons decide the order on [R] *)

Lemma Rle_b_true x y : x <= y -> Rle_b x y = true.
Proof. intros Hxy; unfold Rle_b; destruct (Rle_dec x y); [reflexivity | contradiction]. Qed.

Lemma Rle_b_false x y : y < x -> Rle_b x y = false.
Proof. intros Hxy; unfold Rle_b; destruct (Rle_dec x y); [lra | reflexivity]. Qed.

Lemma Rge_b_true x y : x >= y -> Rge_b x y = true.
Proof. intros Hxy; unfold Rge_b; destruct (Rge_dec x y); [reflexivity | contradiction]. Qed.

Lemma Rge_b_false x y : x < y -> Rge_b x y = false.
Proof. intros Hxy; unfold Rge_b; destruct (Rge_dec x y); [lra | reflexivity]. Qed.

Lemma Rlt_b_true x y : x < y -> Rlt_b x y = true.
Proof. intros Hxy; unfold Rlt_b; destruct (Rlt_dec x y); [reflexivity | contradiction]. Qed.

Lemma Rlt_b_false x y : y <= x -> Rlt_b x y = false.
Proof. intros Hxy; unfold Rlt_b; destruct (Rlt_dec x y); [lra | reflexivity]. Qed.

Lemma Req_b_true x y : x = y -> Req_b x y = true.
Proof. intros Hxy; unfold Req_b; destruct (Req_dec_T x y); [reflexivity | contradiction]. Qed.

Lemma Req_b_false x y : x <> y -> Req_b x y = false.
Proof. intros Hxy; unfold Req_b; destruct (Req_dec_T x y); [contradiction | reflexivity]. Qed.

(** ** Methods that only read *)

Create HintDb frame.

Lemma read_only_ret {A} (v : A) : read_only (ret v).
Proof. intros s; reflexivity. Qed.

Lemma read_only_raise {A} (e : exn) : read_only (@raise A e).
Proof. intros s; reflexivity. Qed.

Lemma read_only_get {A} (f : self -> A) : read_only (get f).
Proof. intros s; reflexivity. Qed.

Lemma read_only_bind {A B} (c : M A) (k : A -> M B) :
  read_only c -> (forall v, read_only (k v)) -> read_only (bind c k).
Proof.
  intros Hc Hk s. unfold bind, self_after in *.
  specialize (Hc s). destruct (c s) as [[v | e] s']; simpl in Hc; subst s'.
  - apply Hk.
  - reflexivity.
Qed.

Lemma read_only_fdiv x y : read_only (fdiv x y).
Proof. unfold fdiv; destruct (Req_b y 0); [apply read_only_raise | apply read_only_ret]. Qed.

#[export] Hint Resolve read_only_ret read_only_raise read_only_get
  read_only_fdiv : frame.
#[export] Hint Extern 2 (read_only (bind _ _)) =>
  apply read_only_bind; [ | intro ] : frame.

Lemma read_only_H p : read_only (H p).
Proof. unfold H; auto 10 with frame. Qed.

Lemma read_only_B p : read_only (B p).
Proof. unfold B; auto using read_only_H with frame. Qed.

Lemma read_only_B_mG p : read_only (B_mG p).
Proof. unfold B_mG; auto using read_only_B with frame. Qed.

Lemma read_only_wirelength : read_only wirelength.
Proof. unfold wirelength; auto 10 with frame. Qed.

Lemma read_only_wire_resistance d : read_only (wire_resistance d).
Proof.
  unfold wire_resistance; destruct d; auto using read_only_wirelength with frame.
Qed.

Lemma read_only_voltage_required d : read_only (voltage_required d).
Proof. unfold voltage_required; auto 10 using read_only_wire_resistance with frame. Qed.

Lemma read_only_awg_recommendation : read_only awg_recommendation.
Proof.
  unfold awg_recommendation. apply read_only_bind; auto with frame.
  intros i; destruct (Rge_b i 0.0125 && Rle_b i 15); auto with frame.
Qed.

Lemma read_only_awg_diameter g : read_only (awg_diameter g).
Proof. unfold awg_diameter; auto with frame. Qed.

#[export] Hint Resolve read_only_H read_only_B read_only_B_mG
  read_only_wirelength read_only_wire_resistance read_only_voltage_required
  read_only_awg_recommendation read_only_awg_diameter : frame.

Lemma read_only_summary p : read_only (summary p).
Proof. unfold summary, centerH, centerB; auto 20 with frame. Qed.

Lemma read_only_same_params {A} (c : M A) s :
  read_only c -> same_params s (self_after (c s)).
Proof. intros Hc; rewrite (Hc s); repeat split. Qed.

(** ** What each method computes *)

Lemma fdiv_ok x y s : y <> 0 -> fdiv x y s = (Ok (x / y), s).
Proof. intros Hy; unfold fdiv; rewrite Req_b_false by assumption; reflexivity. Qed.

Lemma fdiv_zero x y s : y = 0 -> fdiv x y s = (Raise ZeroDivisionError, s).
Proof. intros Hy; unfold fdiv; rewrite Req_b_true by assumption; reflexivity. Qed.

Lemma H_ok p s :
  a s <> 0 ->
  H p s = (Ok (Rpower (4 / 5) (3 / 2) * (IZR (N s) * I s) / a s), s).
Proof. intros Ha; unfold H, bind, get; rewrite fdiv_ok by assumption; reflexivity. Qed.

Lemma H_zero_radius p s : a s = 0 -> H p s = (Raise ZeroDivisionError, s).
Proof. intros Ha; unfold H, bind, get; rewrite fdiv_zero by assumption; reflexivity. Qed.

Lemma B_ok p s :
  a s <> 0 ->
  B p s = (Ok (mu_0 * (Rpower (4 / 5) (3 / 2) * (IZR (N s) * I s) / a s) * 1000), s).
Proof. intros Ha; unfold B, bind; rewrite H_ok by assumption; reflexivity. Qed.

Lemma B_mG_ok p s :
  a s <> 0 ->
  B_mG p s =
  (Ok (mu_0 * (Rpower (4 / 5) (3 / 2) * (IZR (N s) * I s) / a s) * 1000 * 1e4), s).
Proof. intros Ha; unfold B_mG, bind; rewrite B_ok by assumption; reflexivity. Qed.

Lemma wirelength_ok s :
  wirelength s = (Ok (2 * (IZR (N s) * (PI * 2 * a s))), s).
Proof. reflexivity. Qed.

Lemma wire_area_neq_0 d : d <> 0 -> PI * (d / 2) ^ 2 <> 0.
Proof.
  intros Hd. apply Rmult_integral_contrapositive_currified.
  - apply PI_neq0.
  - apply pow_nonzero. lra.
Qed.

Lemma wire_resistance_ok d s :
  d <> 0 ->
  wire_resistance (Some d) s =
  (Ok (resistivity_copper * (2 * (IZR (N s) * (PI * 2 * a s))) / (PI * (d / 2) ^ 2)), s).
Proof.
  intros Hd; unfold wire_resistance, bind; rewrite wirelength_ok.
  rewrite fdiv_ok by (apply wire_area_neq_0; assumption). reflexivity.
Qed.


Lemma wire_resistance_None s : wire_resistance None s = (Raise TypeError, s).
Proof. reflexivity. Qed.

Lemma voltage_required_ok d s :
  d <> 0 ->
  voltage_required (Some d) s =
  (Ok (I s * (resistivity_copper * (2 * (IZR (N s) * (PI * 2 * a s)))
              / (PI * (d / 2) ^ 2))), s).
Proof.
  intros Hd; unfold voltage_required, bind.
  rewrite wire_resistance_ok by assumption. reflexivity.
Qed.

Lemma voltage_required_None s : voltage_required None s = (Raise TypeError, s).
Proof. reflexivity. Qed.

Lemma awg_recommendation_in_range s :
  0.0125 <= I s <= 15 ->
  awg_recommendation s = (Ok (snd (awg_loop (I s) gauge_current (Inf, 0%Z))), s).
Proof.
  intros [Hlo Hhi]; unfold awg_recommendation, bind, get.
  rewrite Rge_b_true, Rle_b_true by lra. reflexivity.
Qed.

Lemma awg_recommendation_out_of_range s :
  I s < 0.0125 \/ 15 < I s -> awg_recommendation s = (Ok 0%Z, s).
Proof.
  intros Hout; unfold awg_recommendation, bind, get.
  destruct Hout as [Hlo | Hhi].
  - rewrite Rge_b_false by lra. reflexivity.
  - rewrite Rle_b_false by lra. rewrite andb_false_r. reflexivity.
Qed.

(** ** The selection loop of [awg_recommendation] *)

Section AwgLoop.
Variable i : R.

Lemma awg_inv_start : awg_inv i [] (Inf, 0%Z).
Proof. split; [reflexivity | intros g r []]. Qed.

Lemma awg_step_inv seen st item :
  awg_inv i seen st -> awg_inv i (seen ++ [item]) (awg_step i st item).
Proof.
  destruct st as [delta awg_rec], item as [gauge current].
  unfold awg_inv, awg_step, Rge_b, lt_x, Rlt_b; simpl.
  intros Hinv.
  destruct (Rge_dec (current - i) 0) as [Hge | Hlt]; simpl.
  - destruct delta as [e | ].
    + destruct Hinv as (r & Hin & He & Hr & Hmin).
      destruct (Rlt_dec (current - i) e) as [Hless | Hnot]; simpl.
      * exists current. repeat split; try lra.
        -- apply in_or_app; right; left; reflexivity.
        -- intros g' r' Hin' Hr'. apply in_app_or in Hin' as [Hin' | [Heq | []]].
           ++ specialize (Hmin g' r' Hin' Hr'). lra.
           ++ inversion Heq; subst; lra.
      * exists r. repeat split; try assumption.
        -- apply in_or_app; left; assumption.
        -- intros g' r' Hin' Hr'. apply in_app_or in Hin' as [Hin' | [Heq | []]].
           ++ apply (Hmin g' r' Hin' Hr').
           ++ inversion Heq; subst; lra.
    + destruct Hinv as [_ Hbelow].
      exists current. repeat split; try lra.
      * apply in_or_app; right; left; reflexivity.
      * intros g' r' Hin' Hr'. apply in_app_or in Hin' as [Hin' | [Heq | []]].
        -- specialize (Hbelow g' r' Hin'). lra.
        -- inversion Heq; subst; lra.
  - destruct delta as [e | ]; simpl.
    + destruct Hinv as (r & Hin & He & Hr & Hmin).
      exists r. repeat split; try assumption.
      * apply in_or_app; left; assumption.
      * intros g' r' Hin' Hr'. apply in_app_or in Hin' as [Hin' | [Heq | []]].
        -- apply (Hmin g' r' Hin' Hr').
        -- inversion Heq; subst; lra.
    + destruct Hinv as [Hrec Hbelow]. split; [assumption | ].
      intros g r Hin. apply in_app_or in Hin as [Hin | [Heq | []]].
      * apply (Hbelow g r Hin).
      * inversion Heq; subst; lra.
Qed.

Lemma awg_loop_inv items : forall seen st,
  awg_inv i seen st -> awg_inv i (seen ++ items) (awg_loop i items st).
Proof.
  induction items as [ | item items IH]; intros seen st Hinv.
  - rewrite app_nil_r. exact Hinv.
  - simpl. replace (seen ++ item :: items) with ((seen ++ [item]) ++ items)
      by (rewrite <- app_assoc; reflexivity).
    apply IH, awg_step_inv, Hinv.
Qed.

Lemma awg_loop_tightest table :
  (exists g r, In (g, r) table /\ r >= i) ->
  tightest_gauge table i (snd (awg_loop i table (Inf, 0%Z))).
Proof.
  intros (g & r & Hin & Hr).
  pose proof (awg_loop_inv table [] (Inf, 0%Z) awg_inv_start) as Hinv.
  simpl in Hinv. unfold awg_inv in Hinv.
  destruct (awg_loop i table (Inf, 0%Z)) as [[e | ] awg_rec]; simpl in *.
  - destruct Hinv as (r0 & Hin0 & _ & Hr0 & Hmin). exists r0; auto.
  - destruct Hinv as [_ Hbelow]. specialize (Hbelow g r Hin). lra.
Qed.

Lemma awg_loop_none table :
  (forall g r, In (g, r) table -> r < i) ->
  snd (awg_loop i table (Inf, 0%Z)) = 0%Z.
Proof.
  intros Hall.
  pose proof (awg_loop_inv table [] (Inf, 0%Z) awg_inv_start) as Hinv.
  simpl in Hinv. unfold awg_inv in Hinv.
  destruct (awg_loop i table (Inf, 0%Z)) as [[e | ] awg_rec]; simpl in *.
  - destruct Hinv as (r0 & Hin0 & _ & Hr0 & _). specialize (Hall _ _ Hin0). lra.
  - tauto.
Qed.

End AwgLoop.

(** *** Running the loop on a concrete current *)

Lemma awg_loop_nil i st : awg_loop i [] st = st.
Proof. reflexivity. Qed.

Lemma awg_loop_cons i item items st :
  awg_loop i (item :: items) st = awg_loop i items (awg_step i st item).
Proof. reflexivity. Qed.

Lemma awg_step_below i delta awg_rec gauge current :
  current < i -> awg_step i (delta, awg_rec) (gauge, current) = (delta, awg_rec).
Proof. intros Hc; unfold awg_step; rewrite Rge_b_false by lra; reflexivity. Qed.

Lemma awg_step_first i awg_rec gauge current :
  current >= i ->
  awg_step i (Inf, awg_rec) (gauge, current) = (Finite (current - i), gauge).
Proof. intros Hc; unfold awg_step; rewrite Rge_b_true by lra; reflexivity. Qed.

Lemma awg_step_tighter i e awg_rec gauge current :
  current >= i -> current - i < e ->
  awg_step i (Finite e, awg_rec) (gauge, current) = (Finite (current - i), gauge).
Proof.
  intros Hc He; unfold awg_step, lt_x.
  rewrite Rge_b_true, Rlt_b_true by lra; reflexivity.
Qed.

Lemma awg_step_looser i e awg_rec gauge current :
  e <= current - i ->
  awg_step i (Finite e, awg_rec) (gauge, current) = (Finite e, awg_rec).
Proof.
  intros He; unfold awg_step, lt_x.
  rewrite Rlt_b_false by lra. rewrite andb_false_r; reflexivity.
Qed.

(** Runs the loop over the whole table when the order of the current and of
    every rating is settled by linear arithmetic. *)
Ltac awg_run :=
  unfold gauge_current;
  repeat (rewrite awg_loop_cons;
          first [ rewrite awg_step_below by lra
                | rewrite awg_step_first by lra
                | rewrite awg_step_tighter by lra
                | rewrite awg_step_looser by lra ]);
  rewrite awg_loop_nil.

Lemma awg_recommendation_2_4 s :
  I s = 2.4 -> awg_recommendation s = (Ok 17%Z, s).
Proof.
  intros Hi. rewrite awg_recommendation_in_range by lra.
  rewrite Hi. awg_run. reflexivity.
Qed.

Lemma awg_recommendation_5 s :
  I s = 5 -> awg_recommendation s = (Ok 14%Z, s).
Proof.
  intros Hi. rewrite awg_recommendation_in_range by lra.
  rewrite Hi. awg_run. reflexivity.
Qed.

(** ** [summary] and [custom_B_field_cal] as a whole *)

(** Replaces the next call by its outcome, given by the equation [L], and
    continues with the rest of the method body. *)
Ltac run_call L := rewrite L by assumption; cbv beta iota.

Lemma summary_ok p s g d :
  a s <> 0 ->
  awg_recommendation s = (Ok g, s) ->
  dict_get awg_to_diameter g = Some d ->
  d <> 0 ->
  exists h b v,
    summary p s =
    (Ok (mkSummary p h b (b * 1e4) h b (2 * (IZR (N s) * (PI * 2 * a s))) g v), s).
Proof.
  intros Ha Hrec Hget Hd. do 3 eexists.
  unfold summary, centerH, centerB, bind.
  run_call H_ok. run_call B_ok. run_call B_mG_ok.
  run_call H_ok. run_call B_ok. run_call wirelength_ok.
  run_call Hrec. run_call Hrec.
  unfold awg_diameter, ret at 1. rewrite Hget.
  run_call voltage_required_ok.
  reflexivity.
Qed.

Lemma summary_no_diameter p s g :
  a s <> 0 ->
  awg_recommendation s = (Ok g, s) ->
  dict_get awg_to_diameter g = None ->
  summary p s = (Raise TypeError, s).
Proof.
  intros Ha Hrec Hget.
  unfold summary, centerH, centerB, bind.
  run_call H_ok. run_call B_ok. run_call B_mG_ok.
  run_call H_ok. run_call B_ok. run_call wirelength_ok.
  run_call Hrec. run_call Hrec.
  unfold awg_diameter, ret at 1. rewrite Hget.
  reflexivity.
Qed.

Lemma summary_zero_radius p s :
  a s = 0 -> summary p s = (Raise ZeroDivisionError, s).
Proof.
  intros Ha. unfold summary, bind. rewrite H_zero_radius by assumption.
  reflexivity.
Qed.

Lemma custom_B_field_cal_self_after gauge turns radius current position s :
  self_after (custom_B_field_cal gauge turns radius current position s)
  = with_I current (with_a radius (with_N turns s)).
Proof.
  unfold custom_B_field_cal.
  set (rest := bind (awg_diameter gauge) _).
  assert (Hrest : read_only rest).
  { subst rest. apply read_only_bind; [auto with frame | ].
    intros [d | ]; unfold centerH, centerB; auto 20 with frame. }
  unfold bind, set_N, set_a, set_I. apply Hrest.
Qed.

Lemma custom_B_field_cal_invalid gauge turns radius current position s :
  dict_get awg_to_diameter gauge = None ->
  value_of (custom_B_field_cal gauge turns radius current position s)
  = Raise (ValueError gauge).
Proof.
  intros Hget.
  unfold custom_B_field_cal, bind, set_N, set_a, set_I, awg_diameter, ret.
  rewrite Hget. reflexivity.
Qed.

Lemma custom_B_field_cal_ok gauge turns radius current position s d :
  radius <> 0 ->
  dict_get awg_to_diameter gauge = Some d ->
  d <> 0 ->
  exists out,
    value_of (custom_B_field_cal gauge turns radius current position s) = Ok out.
Proof.
  intros Hr Hget Hd. eexists.
  unfold custom_B_field_cal, bind at 1 2 3 4.
  unfold set_N, set_a, set_I, awg_diameter, ret at 1.
  rewrite Hget.
  set (s' := with_I current (with_a radius (with_N turns s))).
  assert (Ha : a s' <> 0) by exact Hr.
  unfold centerH, centerB, bind.
  run_call B_ok. run_call voltage_required_ok.
  run_call H_ok. run_call H_ok. run_call B_ok. run_call wirelength_ok.
  reflexivity.
Qed.

(** ** Bounds on [PI] and table facts *)

Lemma PI_between : 3.1411 <= PI <= 3.1421.
Proof.
  pose proof (PI_2_3_7_ineq 2) as Hpi.
  unfold sum_f_R0, tg_alt, PI_2_3_7_tg, Ratan_seq in Hpi.
  simpl in Hpi. lra.
Qed.

Lemma dict_get_In {V} (d : list (Z * V)) k v :
  dict_get d k = Some v -> In (k, v) d.
Proof.
  induction d as [ | [k' v'] d IH]; simpl; [discriminate | ].
  destruct (Z.eqb_spec k' k) as [-> | Hne].
  - intros [= ->]. left; reflexivity.
  - intros Hget. right; apply IH, Hget.
Qed.

(** Neither dict literal repeats a key, so the first match of [dict_get] is
    the only entry for that key. *)
Lemma gauge_tables_keys_NoDup :
  NoDup (map fst gauge_current) /\ NoDup (map fst awg_to_diameter).
Proof.
  split; simpl;
    repeat (constructor; [simpl; intuition discriminate | ]); constructor.
Qed.

Lemma awg_to_diameter_domain awg :
  dict_get awg_to_diameter awg = None <-> ~ (10 <= awg <= 22)%Z.
Proof.
  split.
  - intros Hnone Hin.
    assert (Hcases : (awg = 10 \/ awg = 11 \/ awg = 12 \/ awg = 13 \/ awg = 14
                      \/ awg = 15 \/ awg = 16 \/ awg = 17 \/ awg = 18
                      \/ awg = 19 \/ awg = 20 \/ awg = 21 \/ awg = 22)%Z) by lia.
    repeat (destruct Hcases as [-> | Hcases]; [discriminate Hnone | ]).
    subst awg; discriminate Hnone.
  - intros Hout. unfold awg_to_diameter, dict_get.
    repeat (match goal with
            | |- context [Z.eqb ?k awg] =>
                destruct (Z.eqb_spec k awg); [exfalso; lia | ]
            end).
    reflexivity.
Qed.

(** ** The claims *)

(** C1 (as amended): when [custom_B_field_cal] is called with a gauge that
    [awg_diameter] does not know, it raises the invalid-gauge [ValueError],
    and the object it leaves behind already holds the supplied turns, radius
    and current: the three assignments precede the gauge check.  The coil
    positions are left as they were. *)
Theorem C1_invalid_gauge_raises_after_assignment
  (gauge turns : Z) (radius current position : R) (s : self) :
  value_of (awg_diameter gauge s) = Ok None ->
  let call := custom_B_field_cal gauge turns radius current position s in
  value_of call = Raise (ValueError gauge) /\
  N (self_after call) = turns /\
  a (self_after call) = radius /\
  I (self_after call) = current /\
  lhcoil_position (self_after call) = lhcoil_position s /\
  rhcoil_position (self_after call) = rhcoil_position s.
Proof.
  intros Habsent call. subst call.
  assert (Hget : dict_get awg_to_diameter gauge = None).
  { cbv [awg_diameter ret value_of fst] in Habsent.
    injection Habsent as Hget; exact Hget. }
  rewrite custom_B_field_cal_self_after.
  split; [apply custom_B_field_cal_invalid, Hget | ].
  repeat split.
Qed.

Lemma C1_invalid_gauge_witness :
  value_of (awg_diameter 23 (init 20 5 0.025)) = Ok None /\
  value_of (custom_B_field_cal 23 30 0.05 1 0 (init 20 5 0.025))
  = Raise (ValueError 23) /\
  N (self_after (custom_B_field_cal 23 30 0.05 1 0 (init 20 5 0.025))) = 30%Z.
Proof.
  split; [reflexivity | ].
  pose proof (C1_invalid_gauge_raises_after_assignment
                23 30 0.05 1 0 (init 20 5 0.025) eq_refl)
    as (Hraise & Hturns & _).
  split; assumption.
Defined.

(** C1 (as stated) fails: on the model built with turns 20, current 5 and
    radius 0.025, the call with the unknown gauge 23 and turns 30 does not
    leave the stored parameters unchanged. *)
Lemma C1_atomic_failure_refuted :
  value_of (awg_diameter 23 (init 20 5 0.025)) = Ok None /\
  ~ (value_of (custom_B_field_cal 23 30 0.05 1 0 (init 20 5 0.025))
     = Raise (ValueError 23) /\
     same_params (init 20 5 0.025)
       (self_after (custom_B_field_cal 23 30 0.05 1 0 (init 20 5 0.025)))).
Proof.
  split; [reflexivity | ].
  intros [_ (Hturns & _ & _)].
  rewrite custom_B_field_cal_self_after in Hturns.
  simpl in Hturns. discriminate Hturns.
Qed.

(** C2 (as amended): for the model built with turns 20, current 5 and
    radius 0.025, [summary 0] returns a dictionary whose wire length is
    [2 * 20 * (2 * PI * 0.025)], within 1e-3 of 6.2832, and whose recommended
    gauge is 14, the gauge rated for exactly 5 A. *)
Theorem C2_summary_of_demo_model :
  exists out,
    value_of (summary 0 helmholtz_coils) = Ok out /\
    s_wire_length out = 2 * 20 * (2 * PI * 0.025) /\
    Rabs (s_wire_length out - 6.2832) <= 1e-3 /\
    s_awg_recommendation out = 14%Z.
Proof.
  unfold helmholtz_coils. set (s := init 20 5 0.025).
  destruct (summary_ok 0 s 14 0.001628) as (h & b & v & Hsum).
  - simpl; lra.
  - apply awg_recommendation_5; reflexivity.
  - reflexivity.
  - lra.
  - eexists. rewrite Hsum. split; [reflexivity | ]. simpl.
    pose proof PI_between as Hpi.
    split; [ring | ]. split; [ | reflexivity].
    apply Rabs_le. lra.
Qed.

(** C2 (as stated) fails: [summary 0] on that model does not return a
    dictionary with wire length within 1e-3 of 6.2832 and recommended
    gauge 11. *)
Lemma C2_gauge_11_refuted :
  ~ exists out,
      value_of (summary 0 helmholtz_coils) = Ok out /\
      Rabs (s_wire_length out - 6.2832) <= 1e-3 /\
      s_awg_recommendation out = 11%Z.
Proof.
  intros (out & Hout & _ & Hgauge).
  unfold helmholtz_coils in Hout. set (s := init 20 5 0.025) in *.
  destruct (summary_ok 0 s 14 0.001628) as (h & b & v & Hsum).
  - simpl; lra.
  - apply awg_recommendation_5; reflexivity.
  - reflexivity.
  - lra.
  - rewrite Hsum in Hout. simpl in Hout.
    injection Hout as <-. simpl in Hgauge. discriminate Hgauge.
Qed.

(** C3: [awg_recommendation] returns 0 when the current is outside
    [0.0125, 15]; when the current is inside and some gauge of
    [gauge_current] is rated at least the current, it returns a gauge whose
    rating is at least the current and is the smallest such rating; a
    current of 2.4 selects gauge 17, rated 2.5. *)
Theorem C3_awg_recommendation (s : self) :
  (I s < 0.0125 \/ 15 < I s -> value_of (awg_recommendation s) = Ok 0%Z) /\
  (0.0125 <= I s <= 15 ->
   (exists g r, In (g, r) gauge_current /\ r >= I s) ->
   exists g, value_of (awg_recommendation s) = Ok g /\
             tightest_gauge gauge_current (I s) g) /\
  (I s = 2.4 ->
   value_of (awg_recommendation s) = Ok 17%Z /\ In (17%Z, 2.5) gauge_current).
Proof.
  split; [ | split].
  - intros Hout. rewrite awg_recommendation_out_of_range by assumption.
    reflexivity.
  - intros Hin Hsome. rewrite awg_recommendation_in_range by assumption.
    eexists; split; [reflexivity | ].
    apply awg_loop_tightest, Hsome.
  - intros Hi. rewrite awg_recommendation_2_4 by assumption.
    split; [reflexivity | ]. simpl; auto 10.
Qed.

Lemma C3_awg_recommendation_witness :
  value_of (awg_recommendation (init 20 0.01 0.025)) = Ok 0%Z /\
  value_of (awg_recommendation (init 20 16 0.025)) = Ok 0%Z /\
  (exists g, value_of (awg_recommendation (init 20 2.4 0.025)) = Ok g /\
             tightest_gauge gauge_current 2.4 g) /\
  value_of (awg_recommendation (init 20 2.4 0.025)) = Ok 17%Z.
Proof.
  split; [ | split; [ | split]].
  - apply (C3_awg_recommendation (init 20 0.01 0.025)). simpl; lra.
  - apply (C3_awg_recommendation (init 20 16 0.025)). simpl; lra.
  - apply (C3_awg_recommendation (init 20 2.4 0.025)).
    + simpl; lra.
    + exists 10%Z, 15. split; [left; reflexivity | simpl; lra].
  - apply (C3_awg_recommendation (init 20 2.4 0.025)). reflexivity.
Defined.

(** C4: for a model with positive turns and positive radius, at every
    position [H] returns [(4/5)^(3/2) * turns * current / radius], whatever
    the position, and [centerH] returns what [H 0] returns. *)
Theorem C4_field_is_position_independent (s : self) (p : R) :
  (0 < N s)%Z -> 0 < a s ->
  value_of (H p s) = Ok (Rpower (4 / 5) (3 / 2) * IZR (N s) * I s / a s) /\
  value_of (H p s) = value_of (H 0 s) /\
  value_of (centerH s) = value_of (H 0 s).
Proof.
  intros _ Ha. assert (Hne : a s <> 0) by lra.
  unfold centerH. rewrite !H_ok by assumption. simpl.
  repeat split. f_equal. field. assumption.
Qed.

Lemma C4_field_witness :
  value_of (H 0.05 (init 20 5 0.025))
  = Ok (Rpower (4 / 5) (3 / 2) * 20 * 5 / 0.025).
Proof.
  apply (C4_field_is_position_independent (init 20 5 0.025) 0.05).
  - reflexivity.
  - simpl; lra.
Defined.

(** C5: [awg_diameter] returns [None] exactly when the gauge is outside
    10..22, and for a gauge inside it returns the diameter the table holds
    for that gauge; gauge 23 gives [None] and gauge 14 gives 0.001628. *)
Theorem C5_awg_diameter_domain (awg : Z) (s : self) :
  (value_of (awg_diameter awg s) = Ok None <-> ~ (10 <= awg <= 22)%Z) /\
  (forall d, value_of (awg_diameter awg s) = Ok (Some d) ->
             In (awg, d) awg_to_diameter) /\
  value_of (awg_diameter 23 s) = Ok None /\
  value_of (awg_diameter 14 s) = Ok (Some 0.001628).
Proof.
  split; [ | split; [ | split; reflexivity]].
  - rewrite <- awg_to_diameter_domain.
    cbv [awg_diameter ret value_of fst].
    split; [intros [= Hget]; exact Hget | intros ->; reflexivity].
  - intros d. cbv [awg_diameter ret value_of fst].
    intros [= Hget]. apply dict_get_In, Hget.
Qed.

Lemma C5_awg_diameter_witness :
  value_of (awg_diameter 0 (init 20 5 0.025)) = Ok None /\
  In (14%Z, 0.001628) awg_to_diameter.
Proof.
  split.
  - destruct (C5_awg_diameter_domain 0 (init 20 5 0.025)) as [[_ Hout] _].
    apply Hout. lia.
  - destruct (C5_awg_diameter_domain 14 (init 20 5 0.025)) as (_ & Hin & _).
    apply Hin. reflexivity.
Defined.

(** C6: every method other than [custom_B_field_cal], that is [H],
    [centerH], [B], [centerB], [B_mG], [wirelength], [wire_resistance],
    [voltage_required], [awg_recommendation], [awg_diameter] and [summary],
    leaves the stored turns, current and radius unchanged, whether it
    returns or raises. *)
Theorem C6_only_custom_call_assigns
  (s : self) (position : R) (wire_diameter : option R) (awg : Z) :
  same_params s (self_after (H position s)) /\
  same_params s (self_after (centerH s)) /\
  same_params s (self_after (B position s)) /\
  same_params s (self_after (centerB s)) /\
  same_params s (self_after (B_mG position s)) /\
  same_params s (self_after (wirelength s)) /\
  same_params s (self_after (wire_resistance wire_diameter s)) /\
  same_params s (self_after (voltage_required wire_diameter s)) /\
  same_params s (self_after (awg_recommendation s)) /\
  same_params s (self_after (awg_diameter awg s)) /\
  same_params s (self_after (summary position s)).
Proof.
  unfold centerH, centerB.
  repeat split; apply read_only_same_params;
    auto using read_only_summary with frame.
Qed.

(** C7: [wirelength] returns [2 * turns * (2 * PI * radius)]; on the model
    with doubled turns it returns twice that, and on the model with doubled
    radius it returns twice that. *)
Theorem C7_wirelength_linear (s : self) :
  exists L,
    value_of (wirelength s) = Ok L /\
    L = 2 * IZR (N s) * (2 * PI * a s) /\
    value_of (wirelength (with_N (2 * N s) s)) = Ok (2 * L) /\
    value_of (wirelength (with_a (2 * a s) s)) = Ok (2 * L).
Proof.
  eexists. rewrite !wirelength_ok.
  unfold with_N, with_a, value_of. cbn [N a fst].
  split; [reflexivity | ].
  split; [ring | ].
  split; f_equal.
  - rewrite mult_IZR. ring.
  - ring.
Qed.

(** C8: for a wire diameter [d <> 0], [wire_resistance] returns
    [resistivity_copper * wirelength / (PI * (d / 2)^2)] with
    [resistivity_copper = 1.68e-8], and for the diameter [2 * d] it returns
    a quarter of that. *)
Theorem C8_wire_resistance_inverse_square (s : self) (d : R) :
  d <> 0 ->
  exists L r,
    value_of (wirelength s) = Ok L /\
    value_of (wire_resistance (Some d) s) = Ok r /\
    r = resistivity_copper * L / (PI * (d / 2) ^ 2) /\
    resistivity_copper = 1.68e-8 /\
    value_of (wire_resistance (Some (2 * d)) s) = Ok (r / 4).
Proof.
  intros Hd. assert (H2d : 2 * d <> 0) by lra.
  do 2 eexists.
  rewrite wirelength_ok, !wire_resistance_ok by assumption. simpl.
  split; [reflexivity | ].
  split; [reflexivity | ].
  split; [reflexivity | ].
  split; [reflexivity | ].
  f_equal. field. split; [assumption | apply PI_neq0].
Qed.

Lemma C8_wire_resistance_witness :
  exists L r,
    value_of (wirelength (init 20 5 0.025)) = Ok L /\
    value_of (wire_resistance (Some 0.001628) (init 20 5 0.025)) = Ok r /\
    r = resistivity_copper * L / (PI * (0.001628 / 2) ^ 2) /\
    resistivity_copper = 1.68e-8 /\
    value_of (wire_resistance (Some (2 * 0.001628)) (init 20 5 0.025))
    = Ok (r / 4).
Proof.
  apply (C8_wire_resistance_inverse_square (init 20 5 0.025) 0.001628). lra.
Defined.

(** C9: after a successful [custom_B_field_cal] on a model built with
    radius [r], the stored coil positions are what they were: [- r / 2] and
    [r / 2], while the stored radius is the new one; so when the new radius
    differs from [r] they are not minus and plus half the new radius. *)
Theorem C9_coil_positions_keep_construction_radius
  (turns_per_coil : Z) (current_per_coil coil_radius : R)
  (gauge turns : Z) (radius current position : R) (out : custom_dict) :
  value_of (custom_B_field_cal gauge turns radius current position
              (init turns_per_coil current_per_coil coil_radius)) = Ok out ->
  let s := init turns_per_coil current_per_coil coil_radius in
  let s' := self_after
              (custom_B_field_cal gauge turns radius current position s) in
  lhcoil_position s' = lhcoil_position s /\
  rhcoil_position s' = rhcoil_position s /\
  lhcoil_position s' = - coil_radius / 2 /\
  rhcoil_position s' = coil_radius / 2 /\
  a s' = radius /\
  (radius <> coil_radius ->
   lhcoil_position s' <> - radius / 2 /\ rhcoil_position s' <> radius / 2).
Proof.
  intros _ s s'. subst s' s.
  rewrite custom_B_field_cal_self_after. simpl.
  repeat split; intros Heq; lra.
Qed.

Lemma C9_coil_positions_witness :
  exists out,
    value_of (custom_B_field_cal 14 20 0.05 1 0 (init 20 5 0.025)) = Ok out /\
    lhcoil_position
      (self_after (custom_B_field_cal 14 20 0.05 1 0 (init 20 5 0.025)))
    = - (0.025) / 2 /\
    rhcoil_position
      (self_after (custom_B_field_cal 14 20 0.05 1 0 (init 20 5 0.025)))
    = 0.025 / 2 /\
    a (self_after (custom_B_field_cal 14 20 0.05 1 0 (init 20 5 0.025)))
    = 0.05.
Proof.
  destruct (custom_B_field_cal_ok 14 20 0.05 1 0 (init 20 5 0.025) 0.001628)
    as [out Hout]; [lra | reflexivity | lra | ].
  exists out. split; [exact Hout | ].
  destruct (C9_coil_positions_keep_construction_radius
              20 5 0.025 14 20 0.05 1 0 out Hout)
    as (_ & _ & Hl & Hr & Ha & _).
  rewrite Hl, Hr, Ha. repeat split.
Defined.

(** C10: when the current is outside [0.0125, 15], [summary] returns no
    dictionary: [awg_recommendation] gives 0, [awg_diameter 0] gives [None],
    [voltage_required None] raises, and so the call to [summary] raises. *)
Theorem C10_summary_raises_out_of_range (s : self) (position : R) :
  I s < 0.0125 \/ 15 < I s ->
  value_of (awg_recommendation s) = Ok 0%Z /\
  value_of (awg_diameter 0 s) = Ok None /\
  value_of (voltage_required None s) = Raise TypeError /\
  (exists e, value_of (summary position s) = Raise e) /\
  (a s <> 0 -> value_of (summary position s) = Raise TypeError).
Proof.
  intros Hout.
  pose proof (awg_recommendation_out_of_range s Hout) as Hrec.
  split; [rewrite Hrec; reflexivity | ].
  split; [reflexivity | ].
  split; [reflexivity | ].
  split.
  - destruct (Req_dec_T (a s) 0) as [Hz | Hnz].
    + exists ZeroDivisionError. rewrite summary_zero_radius by assumption.
      reflexivity.
    + exists TypeError.
      rewrite (summary_no_diameter position s 0) by (assumption || reflexivity).
      reflexivity.
  - intros Hnz.
    rewrite (summary_no_diameter position s 0) by (assumption || reflexivity).
    reflexivity.
Qed.

Lemma C10_summary_raises_witness :
  value_of (summary 0 (init 20 16 0.025)) = Raise TypeError.
Proof.
  destruct (C10_summary_raises_out_of_range (init 20 16 0.025) 0)
    as (_ & _ & _ & _ & Hraise); [right; simpl; lra | ].
  apply Hraise. simpl; lra.
Defined.

(** * Further properties of the class *)

(** ** Facts about the two tables *)

(** Splits a membership in one of the tables into its entries. *)
Ltac table_cases Hin :=
  unfold gauge_current, awg_to_diameter in Hin; cbn [In] in Hin;
  repeat (destruct Hin as [[= <- <-] | Hin]; [ | ]); [ .. | contradiction ].

Lemma gauge_current_bounds g r :
  In (g, r) gauge_current -> (10 <= g <= 40)%Z /\ 0.0125 <= r <= 15.
Proof. intros Hin; table_cases Hin; split; (lia || lra). Qed.

Lemma gauge_current_antitone g r g' r' :
  In (g, r) gauge_current -> In (g', r') gauge_current ->
  r <= r' -> (g' <= g)%Z.
Proof.
  intros Hin Hin' Hle.
  table_cases Hin; table_cases Hin'; first [lia | exfalso; lra].
Qed.

Lemma awg_to_diameter_positive g d :
  dict_get awg_to_diameter g = Some d -> 0 < d.
Proof.
  intros Hget. apply dict_get_In in Hget. table_cases Hget; lra.
Qed.

Lemma rated_above_half_has_diameter g r :
  In (g, r) gauge_current -> 0.5 < r ->
  exists d, dict_get awg_to_diameter g = Some d /\ 0 < d.
Proof.
  intros Hin Hr.
  table_cases Hin; try (exfalso; lra);
    (eexists; split; [reflexivity | lra]).
Qed.

Lemma rated_at_most_half_has_no_diameter g r :
  In (g, r) gauge_current -> r <= 0.5 ->
  dict_get awg_to_diameter g = None.
Proof.
  intros Hin Hr. table_cases Hin; try (exfalso; lra); reflexivity.
Qed.

(** ** What [awg_recommendation] returns *)

Lemma awg_recommendation_returns s :
  exists g, awg_recommendation s = (Ok g, s).
Proof.
  unfold awg_recommendation, bind, get.
  destruct (Rge_b (I s) 0.0125 && Rle_b (I s) 15); eexists; reflexivity.
Qed.

Lemma awg_recommendation_tightest s :
  0.0125 <= I s <= 15 ->
  exists g, awg_recommendation s = (Ok g, s) /\
            tightest_gauge gauge_current (I s) g.
Proof.
  intros Hin. rewrite awg_recommendation_in_range by assumption.
  eexists; split; [reflexivity | ].
  apply awg_loop_tightest. exists 10%Z, 15.
  split; [left; reflexivity | lra].
Qed.

(** ** Exact outcomes of [summary] and [custom_B_field_cal] *)


Lemma summary_value p s g d :
  a s <> 0 ->
  awg_recommendation s = (Ok g, s) ->
  dict_get awg_to_diameter g = Some d ->
  d <> 0 ->
  exists h wl,
    H p s = (Ok h, s) /\
    wirelength s = (Ok wl, s) /\
    summary p s =
    (Ok (mkSummary p h (mu_0 * h * 1000) (mu_0 * h * 1000 * 1e4)
           h (mu_0 * h * 1000) wl g
           (I s * (resistivity_copper * wl / (PI * (d / 2) ^ 2)))), s).
Proof.
  intros Ha Hrec Hget Hd. do 2 eexists.
  split; [apply H_ok; assumption | ].
  split; [apply wirelength_ok | ].
  unfold summary, centerH, centerB, bind.
  run_call H_ok. run_call B_ok. run_call B_mG_ok.
  run_call H_ok. run_call B_ok. run_call wirelength_ok.
  run_call Hrec. run_call Hrec.
  unfold awg_diameter, ret at 1. rewrite Hget.
  run_call voltage_required_ok.
  reflexivity.
Qed.

Lemma custom_B_field_cal_value gauge turns radius current position s d :
  radius <> 0 ->
  dict_get awg_to_diameter gauge = Some d ->
  d <> 0 ->
  let s' := with_I current (with_a radius (with_N turns s)) in
  exists h wl,
    H position s' = (Ok h, s') /\
    wirelength s' = (Ok wl, s') /\
    custom_B_field_cal gauge turns radius current position s =
    (Ok (mkCustom position h (mu_0 * h * 1000) (mu_0 * h * 1000 * 1e4)
           h (mu_0 * h * 1000) wl
           (current * (resistivity_copper * wl / (PI * (d / 2) ^ 2)))), s').
Proof.
  intros Hr Hget Hd s'.
  assert (Ha : a s' <> 0) by exact Hr.
  do 2 eexists.
  split; [apply H_ok; assumption | ].
  split; [apply wirelength_ok | ].
  unfold custom_B_field_cal, bind at 1 2 3 4.
  unfold set_N, set_a, set_I, awg_diameter, ret at 1.
  rewrite Hget. fold s'.
  unfold centerH, centerB, bind.
  run_call B_ok. run_call voltage_required_ok.
  run_call H_ok. run_call H_ok. run_call B_ok. run_call wirelength_ok.
  reflexivity.
Qed.

Lemma custom_B_field_cal_zero_radius gauge turns current position s d :
  dict_get awg_to_diameter gauge = Some d ->
  value_of (custom_B_field_cal gauge turns 0 current position s)
  = Raise ZeroDivisionError.
Proof.
  intros Hget.
  unfold custom_B_field_cal, bind at 1 2 3 4.
  unfold set_N, set_a, set_I, awg_diameter, ret at 1.
  rewrite Hget.
  set (s' := with_I current (with_a 0 (with_N turns s))).
  assert (Ha : a s' = 0) by reflexivity.
  unfold B, bind. rewrite H_zero_radius by assumption. reflexivity.
Qed.

Lemma summary_inv p s out :
  value_of (summary p s) = Ok out ->
  a s <> 0 /\
  exists g d,
    awg_recommendation s = (Ok g, s) /\
    dict_get awg_to_diameter g = Some d /\
    0 < d /\
    let h := Rpower (4 / 5) (3 / 2) * (IZR (N s) * I s) / a s in
    let wl := 2 * (IZR (N s) * (PI * 2 * a s)) in
    out = mkSummary p h (mu_0 * h * 1000) (mu_0 * h * 1000 * 1e4)
            h (mu_0 * h * 1000) wl g
            (I s * (resistivity_copper * wl / (PI * (d / 2) ^ 2))).
Proof.
  intros Hout.
  destruct (Req_dec_T (a s) 0) as [Hz | Ha].
  { rewrite summary_zero_radius in Hout by assumption. discriminate Hout. }
  split; [exact Ha | ].
  destruct (awg_recommendation_returns s) as [g Hrec].
  destruct (dict_get awg_to_diameter g) as [d | ] eqn:Hget.
  2:{ rewrite (summary_no_diameter p s g) in Hout by assumption.
      discriminate Hout. }
  pose proof (awg_to_diameter_positive g d Hget) as Hd.
  assert (Hdne : d <> 0) by lra.
  exists g, d. repeat (split; [assumption | ]).
  destruct (summary_value p s g d Ha Hrec Hget Hdne) as (h & wl & HH & Hwl & Hsum).
  rewrite H_ok in HH by assumption. rewrite wirelength_ok in Hwl.
  injection HH as <-. injection Hwl as <-.
  rewrite Hsum in Hout. unfold value_of in Hout; cbn [fst] in Hout.
  injection Hout as <-. reflexivity.
Qed.

Lemma custom_B_field_cal_inv gauge turns radius current position s out :
  value_of (custom_B_field_cal gauge turns radius current position s) = Ok out ->
  radius <> 0 /\
  exists d,
    dict_get awg_to_diameter gauge = Some d /\
    0 < d /\
    let h := Rpower (4 / 5) (3 / 2) * (IZR turns * current) / radius in
    let wl := 2 * (IZR turns * (PI * 2 * radius)) in
    out = mkCustom position h (mu_0 * h * 1000) (mu_0 * h * 1000 * 1e4)
            h (mu_0 * h * 1000) wl
            (current * (resistivity_copper * wl / (PI * (d / 2) ^ 2))).
Proof.
  intros Hout.
  destruct (dict_get awg_to_diameter gauge) as [d | ] eqn:Hget.
  2:{ rewrite custom_B_field_cal_invalid in Hout by assumption.
      discriminate Hout. }
  destruct (Req_dec_T radius 0) as [-> | Hr].
  { rewrite (custom_B_field_cal_zero_radius gauge turns current position s d)
      in Hout by assumption.
    discriminate Hout. }
  split; [exact Hr | ].
  pose proof (awg_to_diameter_positive gauge d Hget) as Hd.
  assert (Hdne : d <> 0) by lra.
  exists d. split; [reflexivity | ]. split; [assumption | ].
  destruct (custom_B_field_cal_value gauge turns radius current position s d
              Hr Hget Hdne) as (h & wl & HH & Hwl & Hval).
  rewrite H_ok in HH by exact Hr. rewrite wirelength_ok in Hwl.
  injection HH as <-. injection Hwl as <-.
  rewrite Hval in Hout. unfold value_of in Hout; cbn [fst] in Hout.
  injection Hout as <-. reflexivity.
Qed.

(** ** Flux density and the zero-radius edge *)

(** X1: on a model whose radius is not zero, [B] returns [mu_0 * h * 1000]
    and [B_mG] returns [1e4] times that, where [h] is what [H] returns; like
    [H], neither depends on the position, and [centerB] returns what [B]
    returns anywhere. *)
Theorem X1_flux_density_follows_field (s : self) (p q : R) :
  a s <> 0 ->
  exists h,
    value_of (H p s) = Ok h /\
    value_of (B p s) = Ok (mu_0 * h * 1000) /\
    value_of (B_mG p s) = Ok (mu_0 * h * 1000 * 1e4) /\
    value_of (centerB s) = value_of (B p s) /\
    value_of (B q s) = value_of (B p s) /\
    value_of (B_mG q s) = value_of (B_mG p s).
Proof.
  intros Ha. eexists. unfold centerB.
  rewrite !H_ok, !B_ok, !B_mG_ok by assumption.
  repeat split; reflexivity.
Qed.

Lemma X1_flux_density_witness :
  exists h,
    value_of (H 0.05 (init 20 5 0.025)) = Ok h /\
    value_of (B_mG 0.05 (init 20 5 0.025)) = Ok (mu_0 * h * 1000 * 1e4) /\
    value_of (centerB (init 20 5 0.025)) = value_of (B 0.05 (init 20 5 0.025)).
Proof.
  destruct (X1_flux_density_follows_field (init 20 5 0.025) 0.05 0)
    as (h & Hh & _ & Hmg & Hc & _); [simpl; lra | ].
  exists h. repeat split; assumption.
Defined.

(** X2: on a model whose radius is zero, [H], [centerH], [B], [centerB],
    [B_mG] and [summary] raise [ZeroDivisionError]; [wirelength] still
    returns, and returns 0, and so do [wire_resistance] and
    [voltage_required] for a non-zero diameter. *)
Theorem X2_zero_radius (s : self) (p d : R) :
  a s = 0 ->
  value_of (H p s) = Raise ZeroDivisionError /\
  value_of (centerH s) = Raise ZeroDivisionError /\
  value_of (B p s) = Raise ZeroDivisionError /\
  value_of (centerB s) = Raise ZeroDivisionError /\
  value_of (B_mG p s) = Raise ZeroDivisionError /\
  value_of (summary p s) = Raise ZeroDivisionError /\
  value_of (wirelength s) = Ok 0 /\
  (d <> 0 ->
   value_of (wire_resistance (Some d) s) = Ok 0 /\
   value_of (voltage_required (Some d) s) = Ok 0).
Proof.
  intros Ha.
  assert (HH : forall x, H x s = (Raise ZeroDivisionError, s))
    by (intros x; apply H_zero_radius, Ha).
  unfold centerH, centerB, B_mG, B, bind.
  rewrite summary_zero_radius, !HH by assumption.
  repeat (split; [reflexivity | ]).
  split.
  - rewrite wirelength_ok, Ha. unfold value_of; cbn [fst]. f_equal. ring.
  - intros Hd.
    rewrite wire_resistance_ok, voltage_required_ok by assumption.
    rewrite Ha. unfold value_of; cbn [fst].
    split; f_equal; field; split; (assumption || apply PI_neq0).
Qed.

Lemma X2_zero_radius_witness :
  value_of (summary 0 (init 20 5 0)) = Raise ZeroDivisionError /\
  value_of (wirelength (init 20 5 0)) = Ok 0.
Proof.
  destruct (X2_zero_radius (init 20 5 0) 0 1 eq_refl)
    as (_ & _ & _ & _ & _ & Hsum & Hwl & _).
  split; assumption.
Defined.

(** ** Wire resistance and voltage *)



(** X4: for a non-zero diameter [d], [voltage_required] returns the stored
    current times what [wire_resistance] returns, and both methods return
    for [- d] what they return for [d]: a negative diameter is accepted. *)
Theorem X4_voltage_is_current_times_resistance (s : self) (d : R) :
  d <> 0 ->
  exists r,
    value_of (wire_resistance (Some d) s) = Ok r /\
    value_of (voltage_required (Some d) s) = Ok (I s * r) /\
    value_of (wire_resistance (Some (- d)) s) = Ok r /\
    value_of (voltage_required (Some (- d)) s) = Ok (I s * r).
Proof.
  intros Hd. assert (Hnd : - d <> 0) by lra.
  eexists.
  rewrite !wire_resistance_ok, !voltage_required_ok by assumption.
  unfold value_of; cbn [fst].
  repeat split; f_equal; field; split; (assumption || apply PI_neq0).
Qed.

Lemma X4_voltage_witness :
  exists r,
    value_of (wire_resistance (Some 0.001628) (init 20 5 0.025)) = Ok r /\
    value_of (voltage_required (Some 0.001628) (init 20 5 0.025)) = Ok (5 * r).
Proof.
  destruct (X4_voltage_is_current_times_resistance (init 20 5 0.025) 0.001628)
    as (r & Hr & Hv & _); [lra | ].
  exists r. split; assumption.
Defined.

(** ** The recommended gauge *)

(** X5: for a current of at least 0.0125, [awg_recommendation] returns the
    gauge [g] of the table entry [(g, r)] as soon as [r] is at least the
    current and every smaller rating of the table is below the current. *)
Theorem X5_recommendation_is_least_sufficient_rating
  (s : self) (g : Z) (r : R) :
  0.0125 <= I s ->
  In (g, r) gauge_current ->
  I s <= r ->
  (forall g' r', In (g', r') gauge_current -> r' < r -> r' < I s) ->
  value_of (awg_recommendation s) = Ok g.
Proof.
  intros Hlo Hin Hr Hbelow.
  destruct (gauge_current_bounds g r Hin) as [_ [_ Hr15]].
  destruct (awg_recommendation_tightest s) as (g0 & Hrec & r0 & Hin0 & Hr0 & Hmin);
    [lra | ].
  rewrite Hrec. unfold value_of; cbn [fst]. f_equal.
  assert (Hle : r0 <= r) by (apply (Hmin g r Hin); lra).
  assert (Hge : r <= r0).
  { destruct (Rle_dec r r0) as [Hok | Hno]; [exact Hok | ].
    specialize (Hbelow g0 r0 Hin0). lra. }
  pose proof (gauge_current_antitone g r g0 r0 Hin Hin0 Hge).
  pose proof (gauge_current_antitone g0 r0 g r Hin0 Hin Hle).
  lia.
Qed.

Lemma X5_recommendation_witness :
  value_of (awg_recommendation (init 20 3 0.025)) = Ok 16%Z.
Proof.
  apply (X5_recommendation_is_least_sufficient_rating (init 20 3 0.025) 16 3.5).
  - simpl; lra.
  - simpl; auto 10.
  - simpl; lra.
  - intros g' r' Hin Hlt. table_cases Hin; simpl; lra.
Defined.

(** X6: between two models whose currents are both in [0.0125, 15], the one
    with the larger current is never recommended a larger gauge number, and
    every recommended gauge is a key of the table, between 10 and 40. *)
Theorem X6_recommendation_is_antitone (s1 s2 : self) :
  0.0125 <= I s1 -> I s1 <= I s2 -> I s2 <= 15 ->
  exists g1 g2,
    value_of (awg_recommendation s1) = Ok g1 /\
    value_of (awg_recommendation s2) = Ok g2 /\
    (10 <= g2 <= g1)%Z /\ (g1 <= 40)%Z.
Proof.
  intros Hlo Hle Hhi.
  destruct (awg_recommendation_tightest s1) as (g1 & Hrec1 & r1 & Hin1 & Hr1 & Hmin1);
    [lra | ].
  destruct (awg_recommendation_tightest s2) as (g2 & Hrec2 & r2 & Hin2 & Hr2 & Hmin2);
    [lra | ].
  exists g1, g2. rewrite Hrec1, Hrec2.
  split; [reflexivity | ]. split; [reflexivity | ].
  assert (Hr12 : r1 <= r2) by (apply (Hmin1 g2 r2 Hin2); lra).
  pose proof (gauge_current_antitone g1 r1 g2 r2 Hin1 Hin2 Hr12).
  pose proof (gauge_current_bounds g1 r1 Hin1) as [Hg1 _].
  pose proof (gauge_current_bounds g2 r2 Hin2) as [Hg2 _].
  lia.
Qed.

Lemma X6_recommendation_antitone_witness :
  exists g1 g2,
    value_of (awg_recommendation (init 20 1 0.025)) = Ok g1 /\
    value_of (awg_recommendation (init 20 5 0.025)) = Ok g2 /\
    (10 <= g2 <= g1)%Z /\ (g1 <= 40)%Z.
Proof.
  apply (X6_recommendation_is_antitone (init 20 1 0.025) (init 20 5 0.025));
    simpl; lra.
Defined.

(** X7: [awg_recommendation] always returns, and it returns 0 exactly when
    the current is outside [0.0125, 15]. *)
Theorem X7_recommendation_zero_iff_out_of_range (s : self) :
  (exists g, value_of (awg_recommendation s) = Ok g) /\
  (value_of (awg_recommendation s) = Ok 0%Z <-> I s < 0.0125 \/ 15 < I s).
Proof.
  split.
  - destruct (awg_recommendation_returns s) as [g Hg].
    exists g. rewrite Hg. reflexivity.
  - split.
    + intros Hzero.
      destruct (Rlt_dec (I s) 0.0125) as [Hlo | Hlo]; [left; exact Hlo | ].
      destruct (Rlt_dec 15 (I s)) as [Hhi | Hhi]; [right; exact Hhi | ].
      exfalso.
      destruct (awg_recommendation_tightest s) as (g & Hrec & r & Hin & _);
        [lra | ].
      rewrite Hrec in Hzero. unfold value_of in Hzero; cbn [fst] in Hzero.
      injection Hzero as ->.
      pose proof (gauge_current_bounds 0 r Hin) as [Hg _]. lia.
    + intros Hout. rewrite awg_recommendation_out_of_range by assumption.
      reflexivity.
Qed.

Lemma X7_recommendation_zero_witness :
  value_of (awg_recommendation (init 20 (-5) 0.025)) = Ok 0%Z.
Proof.
  destruct (X7_recommendation_zero_iff_out_of_range (init 20 (-5) 0.025))
    as [_ [_ Hout]].
  apply Hout. left; simpl; lra.
Defined.

(** ** When [summary] returns *)

(** X8: [summary] returns a dictionary exactly when the radius is not zero
    and the current is above 0.5 and at most 15.  For a current in
    [0.0125, 0.5] a gauge is recommended (24 or higher) that has no entry in
    [awg_to_diameter], and [summary] raises [TypeError] when the radius is
    not zero. *)
Theorem X8_summary_returns_iff (s : self) (p : R) :
  ((exists out, value_of (summary p s) = Ok out)
   <-> a s <> 0 /\ 0.5 < I s <= 15) /\
  (a s <> 0 -> 0.0125 <= I s <= 0.5 ->
   value_of (summary p s) = Raise TypeError /\
   exists g, value_of (awg_recommendation s) = Ok g /\ (24 <= g <= 40)%Z).
Proof.
  assert (Hlow : a s <> 0 -> 0.0125 <= I s <= 0.5 ->
                 value_of (summary p s) = Raise TypeError /\
                 exists g, value_of (awg_recommendation s) = Ok g /\
                           (24 <= g <= 40)%Z).
  { intros Ha Hin.
    destruct (awg_recommendation_tightest s) as (g & Hrec & r & Hing & Hr & Hmin);
      [lra | ].
    assert (Hr05 : r <= 0.5).
    { apply (Hmin 24%Z 0.5); [simpl; auto 20 | lra]. }
    pose proof (rated_at_most_half_has_no_diameter g r Hing Hr05) as Hnone.
    split.
    - rewrite (summary_no_diameter p s g) by assumption. reflexivity.
    - exists g. rewrite Hrec. split; [reflexivity | ].
      assert (Hge : (24 <= g)%Z).
      { apply (gauge_current_antitone g r 24 0.5 Hing); [simpl; auto 20 | lra]. }
      pose proof (gauge_current_bounds g r Hing) as [Hg _]. lia. }
  split; [ | exact Hlow].
  split.
  - intros [out Hout].
    destruct (Req_dec_T (a s) 0) as [Hz | Hnz].
    { rewrite summary_zero_radius in Hout by assumption. discriminate Hout. }
    split; [exact Hnz | ].
    destruct (Rle_dec (I s) 0.5) as [Hle | Hgt].
    + exfalso.
      destruct (Rlt_dec (I s) 0.0125) as [Hlo | Hlo].
      * rewrite (summary_no_diameter p s 0) in Hout;
          [discriminate Hout | assumption | | reflexivity].
        apply awg_recommendation_out_of_range. left; exact Hlo.
      * destruct Hlow as [Hraise _]; [assumption | lra | ].
        rewrite Hraise in Hout. discriminate Hout.
    + destruct (Rle_dec (I s) 15) as [Hhi | Hhi]; [lra | ].
      exfalso.
      rewrite (summary_no_diameter p s 0) in Hout;
        [discriminate Hout | assumption | | reflexivity].
      apply awg_recommendation_out_of_range. right; lra.
  - intros [Ha [Hlo Hhi]].
    destruct (awg_recommendation_tightest s) as (g & Hrec & r & Hing & Hr & _);
      [lra | ].
    destruct (rated_above_half_has_diameter g r Hing) as (d & Hget & Hd); [lra | ].
    destruct (summary_ok p s g d) as (h & b & v & Hsum);
      [assumption | assumption | assumption | lra | ].
    eexists. rewrite Hsum. reflexivity.
Qed.

Lemma X8_summary_returns_witness :
  (exists out, value_of (summary 0 (init 20 0.6 0.025)) = Ok out) /\
  value_of (summary 0 (init 20 0.5 0.025)) = Raise TypeError.
Proof.
  split.
  - destruct (X8_summary_returns_iff (init 20 0.6 0.025) 0) as [[_ Hret] _].
    apply Hret. simpl; lra.
  - destruct (X8_summary_returns_iff (init 20 0.5 0.025) 0) as [_ Hlow].
    apply Hlow; simpl; lra.
Defined.

(** ** What the returned dictionaries hold *)

(** X9: when [summary] returns a dictionary, each entry is what the method
    of that name returns on the same object; the voltage entry is
    [voltage_required] at the table diameter of the gauge reported in the
    same dictionary; the centre entries repeat the entries at the position,
    and the milligauss entry is [1e4] times the millitesla entry. *)
Theorem X9_summary_entries (s : self) (p : R) (out : summary_dict) :
  value_of (summary p s) = Ok out ->
  value_of (H p s) = Ok (s_H_at_position out) /\
  value_of (B p s) = Ok (s_B_at_position out) /\
  value_of (B_mG p s) = Ok (s_B_mG_at_position out) /\
  value_of (centerH s) = Ok (s_H_at_center out) /\
  value_of (centerB s) = Ok (s_B_at_center out) /\
  value_of (wirelength s) = Ok (s_wire_length out) /\
  value_of (awg_recommendation s) = Ok (s_awg_recommendation out) /\
  (exists d,
     value_of (awg_diameter (s_awg_recommendation out) s) = Ok (Some d) /\
     value_of (voltage_required (Some d) s) = Ok (s_voltage_required out)) /\
  s_H_at_center out = s_H_at_position out /\
  s_B_at_center out = s_B_at_position out /\
  s_B_mG_at_position out = s_B_at_position out * 1e4 /\
  s_position out = p.
Proof.
  intros Hout.
  destruct (summary_inv p s out Hout) as (Ha & g & d & Hrec & Hget & Hd & ->).
  assert (Hdne : d <> 0) by lra.
  cbn [s_position s_H_at_position s_B_at_position s_B_mG_at_position
       s_H_at_center s_B_at_center s_wire_length s_awg_recommendation
       s_voltage_required].
  unfold centerH, centerB.
  rewrite !H_ok, !B_ok, B_mG_ok, wirelength_ok, Hrec by assumption.
  repeat (split; [reflexivity | ]).
  split; [ | repeat split; reflexivity].
  exists d. unfold awg_diameter, ret, value_of; cbn [fst]. rewrite Hget.
  split; [reflexivity | ].
  rewrite voltage_required_ok by assumption. reflexivity.
Qed.

Lemma X9_summary_entries_witness :
  exists out,
    value_of (summary 0 helmholtz_coils) = Ok out /\
    value_of (wirelength helmholtz_coils) = Ok (s_wire_length out) /\
    s_B_mG_at_position out = s_B_at_position out * 1e4.
Proof.
  destruct (summary_ok 0 helmholtz_coils 14 0.001628) as (h & b & v & Hsum).
  - simpl; lra.
  - apply awg_recommendation_5; reflexivity.
  - reflexivity.
  - lra.
  - assert (Hout : value_of (summary 0 helmholtz_coils)
                   = Ok (mkSummary 0 h b (b * 1e4) h b
                           (2 * (IZR (N helmholtz_coils)
                                 * (PI * 2 * a helmholtz_coils))) 14 v))
      by (rewrite Hsum; reflexivity).
    eexists. split; [exact Hout | ].
    destruct (X9_summary_entries helmholtz_coils 0 _ Hout)
      as (_ & _ & _ & _ & _ & Hwl & _ & _ & _ & _ & Hmg & _).
    split; assumption.
Defined.

(** ** Outcomes of [custom_B_field_cal] *)

(** X10: [custom_B_field_cal] returns a dictionary exactly when the gauge
    is in 10..22 and the radius is not zero; with a gauge in 10..22 and a
    zero radius it raises [ZeroDivisionError]; with any other gauge it raises
    the invalid-gauge [ValueError].  In all three cases the object is left
    holding the supplied turns, radius and current. *)
Theorem X10_custom_call_outcomes
  (gauge turns : Z) (radius current position : R) (s : self) :
  ((exists out,
      value_of (custom_B_field_cal gauge turns radius current position s)
      = Ok out)
   <-> (10 <= gauge <= 22)%Z /\ radius <> 0) /\
  (value_of (custom_B_field_cal gauge turns radius current position s)
   = Raise ZeroDivisionError
   <-> (10 <= gauge <= 22)%Z /\ radius = 0) /\
  (value_of (custom_B_field_cal gauge turns radius current position s)
   = Raise (ValueError gauge)
   <-> ~ (10 <= gauge <= 22)%Z) /\
  self_after (custom_B_field_cal gauge turns radius current position s)
  = with_I current (with_a radius (with_N turns s)).
Proof.
  split; [ | split; [ | split; [ | apply custom_B_field_cal_self_after]]].
  all: destruct (dict_get awg_to_diameter gauge) as [d | ] eqn:Hget.
  all: try (pose proof (awg_to_diameter_positive gauge d Hget) as Hd;
            assert (Hdne : d <> 0) by lra;
            assert (Hin : (10 <= gauge <= 22)%Z)
              by (destruct (Z_le_dec 10 gauge); destruct (Z_le_dec gauge 22);
                  try lia;
                  assert (Hn : dict_get awg_to_diameter gauge = None)
                    by (apply awg_to_diameter_domain; lia);
                  congruence)).
  all: try (assert (Hout : ~ (10 <= gauge <= 22)%Z)
              by (apply awg_to_diameter_domain; exact Hget);
            rewrite (custom_B_field_cal_invalid gauge turns radius current
                       position s Hget)).
  all: try (destruct (Req_dec_T radius 0) as [-> | Hr];
            [ rewrite (custom_B_field_cal_zero_radius gauge turns current
                         position s d Hget)
            | destruct (custom_B_field_cal_value gauge turns radius current
                          position s d Hr Hget Hdne) as (h & wl & _ & _ & Hval);
              rewrite Hval; unfold value_of; cbn [fst] ]).
  - split; [intros [out Habs]; discriminate Habs | intros [_ Hne]; exfalso; apply Hne; reflexivity].
  - split; [intros _; split; assumption | intros _; eexists; reflexivity].
  - split; [intros [out Habs]; discriminate Habs | intros [Habs _]; contradiction].
  - split; [intros _; split; [assumption | reflexivity] | reflexivity].
  - split; [intros Habs; discriminate Habs | intros [_ Habs]; contradiction].
  - split; [intros Habs; discriminate Habs | intros [Habs _]; contradiction].
  - split; [intros Habs; discriminate Habs | intros Habs; contradiction].
  - split; [intros Habs; discriminate Habs | intros Habs; contradiction].
  - split; [intros _; assumption | reflexivity].
Qed.

Lemma X10_custom_call_witness :
  (exists out, value_of (custom_B_field_cal 14 20 0.025 1 0 helmholtz_coils) = Ok out) /\
  value_of (custom_B_field_cal 14 20 0 1 0 helmholtz_coils)
  = Raise ZeroDivisionError.
Proof.
  split.
  - destruct (X10_custom_call_outcomes 14 20 0.025 1 0 helmholtz_coils)
      as [[_ Hret] _].
    apply Hret. split; [lia | lra].
  - destruct (X10_custom_call_outcomes 14 20 0 1 0 helmholtz_coils)
      as (_ & [_ Hzero] & _).
    apply Hzero. split; [lia | reflexivity].
Defined.

(** X11: what [custom_B_field_cal] returns or raises depends on its
    arguments only, not on the turns, current and radius the object held
    before; calling it again with the same arguments gives the same outcome
    and leaves the object as the first call left it. *)
Theorem X11_custom_call_forgets_previous_parameters
  (gauge turns : Z) (radius current position : R) (s1 s2 : self) :
  value_of (custom_B_field_cal gauge turns radius current position s1)
  = value_of (custom_B_field_cal gauge turns radius current position s2) /\
  custom_B_field_cal gauge turns radius current position
    (self_after (custom_B_field_cal gauge turns radius current position s1))
  = custom_B_field_cal gauge turns radius current position s1.
Proof.
  assert (Hval : forall s s',
             value_of (custom_B_field_cal gauge turns radius current position s)
             = value_of (custom_B_field_cal gauge turns radius current position s')).
  { intros s s'.
    destruct (dict_get awg_to_diameter gauge) as [d | ] eqn:Hget.
    - destruct (Req_dec_T radius 0) as [-> | Hr].
      + rewrite !(custom_B_field_cal_zero_radius gauge turns current position _ d Hget).
        reflexivity.
      + pose proof (awg_to_diameter_positive gauge d Hget) as Hd.
        assert (Hdne : d <> 0) by lra.
        destruct (custom_B_field_cal_value gauge turns radius current position
                    s d Hr Hget Hdne) as (h & wl & HH & Hwl & Hs).
        destruct (custom_B_field_cal_value gauge turns radius current position
                    s' d Hr Hget Hdne) as (h' & wl' & HH' & Hwl' & Hs').
        rewrite H_ok in HH, HH' by exact Hr.
        rewrite wirelength_ok in Hwl, Hwl'.
        injection HH as <-. injection HH' as <-.
        injection Hwl as <-. injection Hwl' as <-.
        rewrite Hs, Hs'. reflexivity.
    - rewrite !custom_B_field_cal_invalid by assumption. reflexivity. }
  split; [apply Hval | ].
  rewrite (surjective_pairing
             (custom_B_field_cal gauge turns radius current position
                (self_after (custom_B_field_cal gauge turns radius current
                               position s1)))).
  rewrite (surjective_pairing
             (custom_B_field_cal gauge turns radius current position s1)) at 3.
  f_equal.
  - apply Hval.
  - change (snd ?x) with (self_after x).
    rewrite !custom_B_field_cal_self_after. reflexivity.
Qed.

(** X12: when [custom_B_field_cal] returns a dictionary, the object holds
    the supplied turns, radius and current, and each entry of the dictionary
    is what the method of that name returns on the object afterwards; the
    voltage entry is [voltage_required] at the table diameter of the supplied
    gauge. *)
Theorem X12_custom_entries
  (gauge turns : Z) (radius current position : R) (s : self)
  (out : custom_dict) :
  value_of (custom_B_field_cal gauge turns radius current position s) = Ok out ->
  let s' := self_after
              (custom_B_field_cal gauge turns radius current position s) in
  N s' = turns /\ a s' = radius /\ I s' = current /\
  value_of (H position s') = Ok (c_H_at_position out) /\
  value_of (B position s') = Ok (c_B_at_position out) /\
  value_of (B_mG position s') = Ok (c_B_mG_at_position out) /\
  value_of (centerH s') = Ok (c_H_at_center out) /\
  value_of (centerB s') = Ok (c_B_at_center out) /\
  value_of (wirelength s') = Ok (c_wire_length out) /\
  (exists d,
     value_of (awg_diameter gauge s') = Ok (Some d) /\
     value_of (voltage_required (Some d) s') = Ok (c_voltage_required out)) /\
  c_position out = position.
Proof.
  intros Hout s'. subst s'.
  destruct (custom_B_field_cal_inv _ _ _ _ _ _ _ Hout) as (Hr & d & Hget & Hd & ->).
  assert (Hdne : d <> 0) by lra.
  rewrite custom_B_field_cal_self_after.
  set (s' := with_I current (with_a radius (with_N turns s))).
  assert (Ha : a s' <> 0) by exact Hr.
  cbn [c_position c_H_at_position c_B_at_position c_B_mG_at_position
       c_H_at_center c_B_at_center c_wire_length c_voltage_required].
  unfold centerH, centerB.
  rewrite !H_ok, !B_ok, B_mG_ok, wirelength_ok by assumption.
  repeat (split; [reflexivity | ]).
  split; [ | reflexivity].
  exists d. unfold awg_diameter, ret, value_of; cbn [fst]. rewrite Hget.
  split; [reflexivity | ].
  rewrite voltage_required_ok by assumption. reflexivity.
Qed.

Lemma X12_custom_entries_witness :
  exists out,
    value_of (custom_B_field_cal 14 20 0.025 1 0 helmholtz_coils) = Ok out /\
    I (self_after (custom_B_field_cal 14 20 0.025 1 0 helmholtz_coils)) = 1 /\
    value_of (wirelength
                (self_after (custom_B_field_cal 14 20 0.025 1 0 helmholtz_coils)))
    = Ok (c_wire_length out).
Proof.
  destruct (custom_B_field_cal_ok 14 20 0.025 1 0 helmholtz_coils 0.001628)
    as [out Hout]; [lra | reflexivity | lra | ].
  exists out. split; [exact Hout | ].
  destruct (X12_custom_entries 14 20 0.025 1 0 helmholtz_coils out Hout)
    as (_ & _ & HI & _ & _ & _ & _ & _ & Hwl & _).
  split; assumption.
Defined.

(** X13: a [summary] taken right after a successful [custom_B_field_cal],
    at the same position, reports the same field, flux densities, centre
    values and wire length as the custom dictionary; it reports the same
    voltage when the gauge it recommends is the gauge that was supplied. *)
Theorem X13_summary_after_custom_call_agrees
  (gauge turns : Z) (radius current position : R) (s : self)
  (out : custom_dict) (sout : summary_dict) :
  value_of (custom_B_field_cal gauge turns radius current position s) = Ok out ->
  value_of (summary position
              (self_after (custom_B_field_cal gauge turns radius current
                             position s))) = Ok sout ->
  s_H_at_position sout = c_H_at_position out /\
  s_B_at_position sout = c_B_at_position out /\
  s_B_mG_at_position sout = c_B_mG_at_position out /\
  s_H_at_center sout = c_H_at_center out /\
  s_B_at_center sout = c_B_at_center out /\
  s_wire_length sout = c_wire_length out /\
  (s_awg_recommendation sout = gauge ->
   s_voltage_required sout = c_voltage_required out).
Proof.
  intros Hout Hsout.
  destruct (custom_B_field_cal_inv _ _ _ _ _ _ _ Hout) as (Hr & d & Hget & Hd & ->).
  rewrite custom_B_field_cal_self_after in Hsout.
  destruct (summary_inv _ _ _ Hsout) as (_ & g & d' & _ & Hget' & _ & ->).
  cbn.
  repeat (split; [reflexivity | ]).
  intros ->. rewrite Hget in Hget'. injection Hget' as <-. reflexivity.
Qed.

Lemma X13_summary_after_custom_call_witness :
  exists out sout,
    value_of (custom_B_field_cal 14 20 0.025 5 0 helmholtz_coils) = Ok out /\
    value_of (summary 0
                (self_after (custom_B_field_cal 14 20 0.025 5 0 helmholtz_coils)))
    = Ok sout /\
    s_wire_length sout = c_wire_length out.
Proof.
  destruct (custom_B_field_cal_ok 14 20 0.025 5 0 helmholtz_coils 0.001628)
    as [out Hout]; [lra | reflexivity | lra | ].
  destruct (summary_ok 0
              (self_after (custom_B_field_cal 14 20 0.025 5 0 helmholtz_coils))
              14 0.001628) as (h & b & v & Hsum).
  - rewrite custom_B_field_cal_self_after. simpl; lra.
  - apply awg_recommendation_5.
    rewrite custom_B_field_cal_self_after. reflexivity.
  - reflexivity.
  - lra.
  - exists out. eexists.
    assert (Hsout : value_of
                      (summary 0
                         (self_after
                            (custom_B_field_cal 14 20 0.025 5 0 helmholtz_coils)))
                    = Ok (mkSummary 0 h b (b * 1e4) h b _ 14 v))
      by (rewrite Hsum; reflexivity).
    split; [exact Hout | ]. split; [exact Hsout | ].
    apply (X13_summary_after_custom_call_agrees _ _ _ _ _ _ _ _ Hout Hsout).
Defined.

(** ** Coil positions *)

(** X14: [__init__] places the two coils symmetrically about the origin and
    one radius apart.  After a [custom_B_field_cal] on a freshly built
    object, whether it returned or raised, the coils are still one stored
    radius apart exactly when the supplied radius is the construction
    radius. *)
Theorem X14_coil_spacing
  (turns_per_coil : Z) (current_per_coil coil_radius : R)
  (gauge turns : Z) (radius current position : R) :
  let s := init turns_per_coil current_per_coil coil_radius in
  let s' := self_after
              (custom_B_field_cal gauge turns radius current position s) in
  lhcoil_position s = - rhcoil_position s /\
  rhcoil_position s - lhcoil_position s = a s /\
  (rhcoil_position s' - lhcoil_position s' = a s' <-> radius = coil_radius).
Proof.
  intros s s'. subst s' s.
  rewrite custom_B_field_cal_self_after.
  cbn [init with_I with_a with_N lhcoil_position rhcoil_position a N I].
  split; [field | ]. split; [field | ].
  split; intros Heq; lra.
Qed.

Lemma X14_coil_spacing_witness :
  rhcoil_position
    (self_after (custom_B_field_cal 14 20 0.05 1 0 (init 20 5 0.025)))
  - lhcoil_position
      (self_after (custom_B_field_cal 14 20 0.05 1 0 (init 20 5 0.025)))
  <> a (self_after (custom_B_field_cal 14 20 0.05 1 0 (init 20 5 0.025))).
Proof.
  destruct (X14_coil_spacing 20 5 0.025 14 20 0.05 1 0) as (_ & _ & [Hiff _]).
  intros Heq. apply Hiff in Heq. lra.
Defined.

(** ** Scaling and sign of the computed quantities *)

(** X15: on a model whose radius is not zero, [H] (and with it [B]) is
    proportional to the current and to the number of turns and inversely
    proportional to the radius: multiplying the current by [k] multiplies the
    result by [k], multiplying the turns by [n] multiplies it by [n], and
    multiplying the radius by [k <> 0] divides it by [k]. *)
Theorem X15_field_scaling (s : self) (p k : R) (n : Z) :
  a s <> 0 -> k <> 0 ->
  exists h,
    value_of (H p s) = Ok h /\
    value_of (H p (with_I (k * I s) s)) = Ok (k * h) /\
    value_of (H p (with_N (n * N s) s)) = Ok (IZR n * h) /\
    value_of (H p (with_a (k * a s) s)) = Ok (h / k) /\
    value_of (B p (with_I (k * I s) s)) = Ok (k * (mu_0 * h * 1000)).
Proof.
  intros Ha Hk. eexists.
  assert (Hka : k * a s <> 0) by (apply Rmult_integral_contrapositive_currified; assumption).
  rewrite (H_ok p s), (H_ok p (with_I _ s)), (H_ok p (with_N _ s)),
    (B_ok p (with_I _ s)) by assumption.
  rewrite (H_ok p (with_a _ s)) by exact Hka.
  unfold value_of; cbn [fst with_I with_N with_a N I a].
  split; [reflexivity | ].
  rewrite mult_IZR.
  repeat split; f_equal; field; try assumption; split; assumption.
Qed.

Lemma X15_field_scaling_witness :
  exists h,
    value_of (H 0 (init 20 5 0.025)) = Ok h /\
    value_of (H 0 (with_I (2 * 5) (init 20 5 0.025))) = Ok (2 * h).
Proof.
  destruct (X15_field_scaling (init 20 5 0.025) 0 2 1) as (h & Hh & HI & _);
    [simpl; lra | lra | ].
  exists h. split; assumption.
Defined.

(** X16: on a model with positive turns, positive current and positive
    radius, the field, the flux density and the wire length are positive, and
    so are the resistance and the voltage for every non-zero diameter. *)
Theorem X16_positive_model_positive_results (s : self) (p d : R) :
  (0 < N s)%Z -> 0 < I s -> 0 < a s -> d <> 0 ->
  exists h b wl r v,
    value_of (H p s) = Ok h /\ 0 < h /\
    value_of (B p s) = Ok b /\ 0 < b /\
    value_of (wirelength s) = Ok wl /\ 0 < wl /\
    value_of (wire_resistance (Some d) s) = Ok r /\ 0 < r /\
    value_of (voltage_required (Some d) s) = Ok v /\ 0 < v.
Proof.
  intros HN HI Ha Hd.
  assert (Hane : a s <> 0) by lra.
  assert (HNR : 0 < IZR (N s)) by (apply IZR_lt; exact HN).
  assert (Hpow : 0 < Rpower (4 / 5) (3 / 2)) by (unfold Rpower; apply exp_pos).
  pose proof PI_RGT_0 as Hpi.
  assert (Hh : 0 < Rpower (4 / 5) (3 / 2) * (IZR (N s) * I s) / a s).
  { apply Rdiv_lt_0_compat; [ | exact Ha].
    apply Rmult_lt_0_compat; [exact Hpow | ].
    apply Rmult_lt_0_compat; assumption. }
  assert (Hwl : 0 < 2 * (IZR (N s) * (PI * 2 * a s))).
  { apply Rmult_lt_0_compat; [lra | ].
    apply Rmult_lt_0_compat; [exact HNR | ].
    apply Rmult_lt_0_compat; [lra | exact Ha]. }
  assert (Harea : 0 < PI * (d / 2) ^ 2).
  { apply Rmult_lt_0_compat; [lra | ].
    replace ((d / 2) ^ 2) with (d * d / 4) by field.
    destruct (Rtotal_order d 0) as [Hneg | [Hzero | Hpos]]; [ | contradiction | ].
    - assert (0 < (- d) * (- d)) by (apply Rmult_lt_0_compat; lra). lra.
    - assert (0 < d * d) by (apply Rmult_lt_0_compat; lra). lra. }
  assert (Hr : 0 < resistivity_copper * (2 * (IZR (N s) * (PI * 2 * a s)))
                   / (PI * (d / 2) ^ 2)).
  { apply Rdiv_lt_0_compat; [ | exact Harea].
    apply Rmult_lt_0_compat; [unfold resistivity_copper; lra | exact Hwl]. }
  do 5 eexists.
  rewrite H_ok, B_ok, wirelength_ok, wire_resistance_ok, voltage_required_ok
    by assumption.
  unfold value_of; cbn [fst].
  repeat (split; [first [reflexivity | assumption] | ]).
  split.
  - apply Rmult_lt_0_compat; [ | lra].
    apply Rmult_lt_0_compat; [ | exact Hh].
    unfold mu_0. apply Rmult_lt_0_compat; lra.
  - repeat (split; [first [reflexivity | assumption] | ]).
    apply Rmult_lt_0_compat; assumption.
Qed.

Lemma X16_positive_results_witness :
  exists wl, value_of (wirelength (init 20 5 0.025)) = Ok wl /\ 0 < wl.
Proof.
  destruct (X16_positive_model_positive_results (init 20 5 0.025) 0 0.001628)
    as (h & b & wl & r & v & _ & _ & _ & _ & Hwl & Hpos & _);
    [reflexivity | simpl; lra | simpl; lra | lra | ].
  exists wl. split; assumption.
Defined.

(** ** The diameter table *)

(** X17: every diameter [awg_diameter] returns is positive, and a larger
    gauge number gets a smaller diameter. *)
Theorem X17_diameter_decreases_with_gauge (s : self) (g g' : Z) (d d' : R) :
  value_of (awg_diameter g s) = Ok (Some d) ->
  value_of (awg_diameter g' s) = Ok (Some d') ->
  (g < g')%Z ->
  0 < d' /\ d' < d.
Proof.
  intros Hget Hget' Hlt.
  unfold awg_diameter, ret, value_of in Hget, Hget'.
  cbn [fst] in Hget, Hget'.
  assert (Hg : dict_get awg_to_diameter g = Some d)
    by (injection Hget as Hg; exact Hg).
  assert (Hg' : dict_get awg_to_diameter g' = Some d')
    by (injection Hget' as Hg'; exact Hg').
  clear Hget Hget'. rename Hg into Hget, Hg' into Hget'.
  split; [apply (awg_to_diameter_positive g' d' Hget') | ].
  apply dict_get_In in Hget, Hget'.
  table_cases Hget; table_cases Hget'; first [lra | exfalso; lia].
Qed.

Lemma X17_diameter_witness : 0 < 0.0006438 /\ 0.0006438 < 0.002588.
Proof.
  apply (X17_diameter_decreases_with_gauge (init 20 5 0.025) 10 22);
    [reflexivity | reflexivity | lia].
Defined.
